(** * pype.misc.CircularBuffer: a shallow embedding and its properties

    The buffer of [pype/misc.py] keeps a numpy array that is circular along
    one axis, the two counters [_nsWritten] and [_nsRead], the overflow
    policy and the [threading.Event] that announces updates.

    Modelling choices.
    - The storage is the list of its slices along the circular axis: a
      [list A] of length [shape[axis]], where [A] stands for one sample
      (all other dimensions, taken in full by [slice(None)]).
    - Python integers are [Z]; [None] defaults are [option Z]. The index
      arrays of numpy are lists of [Z] as well (their 64-bit width is not
      modelled); the conversion of samples to the [dtype] is not modelled
      either, a sample is stored as it is given.
    - A method is a function from the object before the call to an
      [Outcome]: the returned value or the raised exception, in both cases
      together with the object as the call leaves it (an exception does not
      undo the assignments made before it).
    - The event is its flag; the lock and the blocking [wait] are left out. *)

From Stdlib Require Import ZArith Lia.
From stdpp Require Import base decidable option list list_numbers.

Local Open Scope Z_scope.

(** ** Exceptions raised by the class *)

Inductive PyError : Type :=
  | RewindPastZero      (* IndexError('Cannot rewind past 0') *)
  | FastForward         (* IndexError('Cannot fast forward') *)
  | RewindPastCapacity  (* IndexError('Cannot rewind past the (circular) buffer size') *)
  | BufferOverflow      (* BufferError('Circular buffer overflow occured ...') *)
  | WriteBeforeStart    (* IndexError('Cannot write before 0') *)
  | WriteSkip           (* IndexError('Cannot skip and write ...') *)
  | WriteBeforeRead     (* IndexError('Cannot write before last read sample ...') *)
  | ReadNegativeLength  (* IndexError('Cannot read less negative number of samples') *)
  | ReadPastCapacity    (* IndexError('Cannot read past (circular) buffer size') *)
  | ReadPastWrite       (* IndexError('Cannot read past last written sample') *)
  | NumpyIndexError.    (* numpy: index out of bounds for the axis *)

Global Instance PyError_eq_dec : EqDecision PyError.
Proof. solve_decision. Defined.

(** ** Outcomes and the method monad *)

Inductive Outcome (S R : Type) : Type :=
  | Returned (r : R) (s : S)
  | Raised (e : PyError) (s : S).
Arguments Returned {S R} r s.
Arguments Raised {S R} e s.

Definition final {S R} (o : Outcome S R) : S :=
  match o with Returned _ s => s | Raised _ s => s end.

Definition Py (S R : Type) : Type := S -> Outcome S R.

Definition ret {S R} (r : R) : Py S R := fun s => Returned r s.
Definition raise {S R} (e : PyError) : Py S R := fun s => Raised e s.
Definition bind {S R T} (m : Py S R) (k : R -> Py S T) : Py S T :=
  fun s => match m s with
           | Returned r s' => k r s'
           | Raised e s' => Raised e s'
           end.
Definition self {S} : Py S S := fun s => Returned s s.
Definition assign {S} (f : S -> S) : Py S unit := fun s => Returned tt (f s).

(** The monad is given stdpp's [mret]/[mbind] interface, so that method
    bodies are written [x ← m; k] and [m;; k]. *)
Global Instance Py_ret {S} : MRet (Py S) := fun R r => ret r.
Global Instance Py_bind {S} : MBind (Py S) := fun R T k m => bind m k.

(** ** numpy helpers *)

(** [np.arange(lo, hi)] on integers. *)
Definition arange (lo hi : Z) : list Z := seqZ lo (hi - lo).

(** [indices %= n] on an integer array: the sign follows the divisor, and a
    zero divisor gives 0 (with a warning). *)
Definition np_mod (n i : Z) : Z := if decide (n = 0) then 0 else i mod n.

(** The position an integer index denotes on an axis of extent [n]:
    [-n <= i < n], negative ones counted from the end; anything else is an
    IndexError. *)
Definition np_index (n : nat) (i : Z) : option nat :=
  if decide (0 <= i < Z.of_nat n) then Some (Z.to_nat i)
  else if decide (- Z.of_nat n <= i < 0) then Some (Z.to_nat (i + Z.of_nat n))
  else None.

(** Assignment through an index array, in order: of two values sent to the
    same position the later one stays. *)
Fixpoint np_put {A} (data : list A) (window : list nat) (values : list A) : list A :=
  match window, values with
  | i :: window', v :: values' => np_put (<[i:=v]> data) window' values'
  | _, _ => data
  end.

(** ** The buffer object *)

Record CircularBuffer (A : Type) : Type := mkCircularBuffer {
  _data : list A;
  _allowOverflow : bool;
  _nsWritten : Z;
  _nsRead : Z;
  _updatedEvent : bool
}.
Arguments mkCircularBuffer {A}.
Arguments _data {A}.
Arguments _allowOverflow {A}.
Arguments _nsWritten {A}.
Arguments _nsRead {A}.
Arguments _updatedEvent {A}.

Section CircularBuffer.
Context {A : Type}.
Implicit Types (b : CircularBuffer A) (data : list A).

Definition with_data data b : CircularBuffer A :=
  mkCircularBuffer data (_allowOverflow b) (_nsWritten b) (_nsRead b) (_updatedEvent b).
Definition with_nsWritten (v : Z) b : CircularBuffer A :=
  mkCircularBuffer (_data b) (_allowOverflow b) v (_nsRead b) (_updatedEvent b).
Definition with_nsRead (v : Z) b : CircularBuffer A :=
  mkCircularBuffer (_data b) (_allowOverflow b) (_nsWritten b) v (_updatedEvent b).
Definition with_updatedEvent (v : bool) b : CircularBuffer A :=
  mkCircularBuffer (_data b) (_allowOverflow b) (_nsWritten b) (_nsRead b) v.

(** [self._data.shape[self._axis]], the capacity. *)
Definition capacity b : Z := Z.of_nat (length (_data b)).

(** [__init__]: [np.zeros(shape, dtype)] is [C] copies of the zero sample. *)
Definition init (C : nat) (zero : A) (allowOverflow : bool) : CircularBuffer A :=
  mkCircularBuffer (replicate C zero) allowOverflow 0 0 false.

(** [self._data[window]]. *)
Definition getitem (window : list Z) : Py (CircularBuffer A) (list A) :=
  b ← self;
  match mapM (np_index (length (_data b))) window with
  | Some w => match mapM (fun i => _data b !! i) w with
              | Some r => ret r
              | None => raise NumpyIndexError
              end
  | None => raise NumpyIndexError
  end.

(** [self._data[window] = values]: the indices are checked before anything
    is stored. *)
Definition setitem (window : list Z) (values : list A) : Py (CircularBuffer A) unit :=
  b ← self;
  match mapM (np_index (length (_data b))) window with
  | Some w => assign (with_data (np_put (_data b) w values))
  | None => raise NumpyIndexError
  end.

(** [nsWritten] property. *)
Definition nsWritten : Py (CircularBuffer A) Z :=
  b ← self; ret (_nsWritten b).

(** [nsWritten.setter]. *)
Definition nsWritten_setter (value : Z) : Py (CircularBuffer A) unit :=
  b ← self;
  if decide (value < 0) then raise RewindPastZero
  else if decide (_nsWritten b < value) then raise FastForward
  else
    assign (with_nsWritten value);;
    (if decide (value < _nsRead b) then assign (with_nsRead value) else ret tt);;
    assign (with_updatedEvent true).

(** [_checkOverflow]. *)
Definition _checkOverflow : Py (CircularBuffer A) unit :=
  b ← self;
  if decide (_nsRead b < _nsWritten b - capacity b) then
    if _allowOverflow b then assign (with_nsRead (_nsWritten b - capacity b))
    else raise BufferOverflow
  else ret tt.

(** [nsRead] property. *)
Definition nsRead : Py (CircularBuffer A) Z :=
  _checkOverflow;;
  b ← self; ret (_nsRead b).

(** [nsRead.setter]. *)
Definition nsRead_setter (value : Z) : Py (CircularBuffer A) unit :=
  b ← self;
  if decide (value < 0) then raise RewindPastZero
  else if decide (_nsRead b < value) then raise FastForward
  else if decide (value < _nsWritten b - capacity b) then raise RewindPastCapacity
  else
    assign (with_nsRead value);;
    assign (with_updatedEvent true).

(** [nsAvailable] property. *)
Definition nsAvailable : Py (CircularBuffer A) Z :=
  _checkOverflow;;
  b ← self; ret (_nsWritten b - _nsRead b).

(** [_getWindow]: the circular part of the index tuple. *)
Definition _getWindow (indices : list Z) : Py (CircularBuffer A) (list Z) :=
  b ← self; ret (np_mod (capacity b) <$> indices).

(** [write]. *)
Definition write data (at_ : option Z) : Py (CircularBuffer A) unit :=
  b ← self;
  let at0 := default (_nsWritten b) at_ in
  let at1 := if decide (at0 < 0) then _nsWritten b - at0 else at0 in
  if decide (at1 < 0) then raise WriteBeforeStart
  else if decide (_nsWritten b < at1) then raise WriteSkip
  else if decide (at1 < _nsRead b) then raise WriteBeforeRead
  else
    let indices := arange at1 (at1 + Z.of_nat (length data)) in
    window ← _getWindow indices;
    setitem window data;;
    assign (with_nsWritten (at1 + Z.of_nat (length data)));;
    _checkOverflow;;
    assign (with_updatedEvent true).

(** [read]. *)
Definition read (frm to : option Z) (advance : bool) : Py (CircularBuffer A) (list A) :=
  b ← self;
  let nsWritten := _nsWritten b in
  let frm := default (_nsRead b) frm in
  let to0 := default nsWritten to in
  let to1 := if decide (to0 < 0) then nsWritten - to0 else to0 in
  if decide (to1 < frm) then raise ReadNegativeLength
  else if decide (frm < _nsWritten b - capacity b) then raise ReadPastCapacity
  else if decide (nsWritten < to1) then raise ReadPastWrite
  else
    let indices := arange frm to1 in
    window ← _getWindow indices;
    (if advance then assign (with_nsRead to1) else ret tt);;
    getitem window.

(** [updated]: test and clear the event. *)
Definition updated : Py (CircularBuffer A) bool :=
  b ← self;
  let result := _updatedEvent b in
  (if result then assign (with_updatedEvent false) else ret tt);;
  ret result.

(** ** Derived notions used by the statements *)

(** The physical cell of logical sample [i] on an axis of extent [n]. *)
Definition phys (n : nat) (i : Z) : nat := Z.to_nat (i mod Z.of_nat n).

(** The position [write] settles on (the two assignments to [at]). *)
Definition write_at b (at_ : option Z) : Z :=
  let at0 := default (_nsWritten b) at_ in
  if decide (at0 < 0) then _nsWritten b - at0 else at0.

(** The end index [read] settles on (the two assignments to [to]). *)
Definition read_to b (to : option Z) : Z :=
  let to0 := default (_nsWritten b) to in
  if decide (to0 < 0) then _nsWritten b - to0 else to0.

(** The object once the block is stored at [a] and the write counter moved,
    before the overflow check. *)
Definition stored b data (a : Z) : CircularBuffer A :=
  with_nsWritten (a + Z.of_nat (length data))
    (with_data (np_put (_data b)
                  (phys (length (_data b)) <$> arange a (a + Z.of_nat (length data)))
                  data) b).

(** The overflowed state: the read counter is more than one capacity behind
    the write counter. *)
Definition overflowed b : Prop := _nsRead b < _nsWritten b - capacity b.

(** The invariant of the two counters. *)
Definition cursors_ok b : Prop := 0 <= _nsRead b <= _nsWritten b.

(** The operations of the class that touch the counters. *)
Inductive Call : Type :=
  | CallWrite (data : list A) (at_ : option Z)
  | CallRead (frm to : option Z) (advance : bool)
  | CallSetNsWritten (value : Z)
  | CallSetNsRead (value : Z)
  | CallCheckOverflow
  | CallNsWritten
  | CallNsRead
  | CallNsAvailable
  | CallUpdated.

(** The object after a call, whether it returned or raised. *)
Definition call (c : Call) b : CircularBuffer A :=
  match c with
  | CallWrite data at_ => final (write data at_ b)
  | CallRead frm to advance => final (read frm to advance b)
  | CallSetNsWritten value => final (nsWritten_setter value b)
  | CallSetNsRead value => final (nsRead_setter value b)
  | CallCheckOverflow => final (_checkOverflow b)
  | CallNsWritten => final (nsWritten b)
  | CallNsRead => final (nsRead b)
  | CallNsAvailable => final (nsAvailable b)
  | CallUpdated => final (updated b)
  end.

(** A run of contiguous writes, each at the default position. *)
Fixpoint appends (blocks : list (list A)) : Py (CircularBuffer A) unit :=
  match blocks with
  | [] => mret tt
  | data :: rest => write data None;; appends rest
  end.

(** The number of samples in a run of blocks. *)
Definition total (blocks : list (list A)) : Z := Z.of_nat (length (concat blocks)).

(** The storage holds the stream [L]: [L] is everything written so far and
    every sample of the last [capacity] logical indices sits in its cell. *)
Definition holds_stream b (L : list A) : Prop :=
  _nsWritten b = Z.of_nat (length L) /\
  forall i, _nsWritten b - capacity b <= i -> 0 <= i < _nsWritten b ->
    _data b !! phys (length (_data b)) i = L !! Z.to_nat i.

(** [write] up to and including the assignment to [_nsWritten]: all of its
    statements but the last two. *)
Definition write_store data (at_ : option Z) : Py (CircularBuffer A) unit :=
  b ← self;
  let at0 := default (_nsWritten b) at_ in
  let at1 := if decide (at0 < 0) then _nsWritten b - at0 else at0 in
  if decide (at1 < 0) then raise WriteBeforeStart
  else if decide (_nsWritten b < at1) then raise WriteSkip
  else if decide (at1 < _nsRead b) then raise WriteBeforeRead
  else
    let indices := arange at1 (at1 + Z.of_nat (length data)) in
    window ← _getWindow indices;
    setitem window data;;
    assign (with_nsWritten (at1 + Z.of_nat (length data))).

(** The last two statements of [write]: the overflow check and the event. *)
Definition write_check : Py (CircularBuffer A) unit :=
  _checkOverflow;;
  assign (with_updatedEvent true).

(** The objects that calls of the class, completed one after the other,
    make of a new buffer. *)
Inductive reachable : CircularBuffer A -> Prop :=
  | reachable_init (C : nat) (zero : A) (allowOverflow : bool) :
      reachable (init C zero allowOverflow)
  | reachable_call b (c : Call) :
      reachable b -> reachable (call c b).

End CircularBuffer.

(** ** Proof support *)

Ltac py_unfold :=
  unfold write, read, nsRead, nsAvailable, nsWritten, nsRead_setter,
    nsWritten_setter, _checkOverflow, _getWindow, setitem, getitem, updated,
    mbind, mret, Py_bind, Py_ret, bind, ret, raise, self, assign in *;
  cbn [final _data _allowOverflow _nsWritten _nsRead _updatedEvent
       with_data with_nsWritten with_nsRead with_updatedEvent
       default from_option id] in *.

Ltac py_cases :=
  repeat first
    [ case_decide
    | match goal with
      | |- context [match mapM ?f ?l with _ => _ end] => destruct (mapM f l) eqn:?
      | |- context [if _allowOverflow ?b then _ else _] =>
          destruct (_allowOverflow b) eqn:?
      | |- context [if _updatedEvent ?b then _ else _] =>
          destruct (_updatedEvent b) eqn:?
      | |- context [if ?a then _ else _] => is_var a; destruct a
      end ];
  cbn [final _data _allowOverflow _nsWritten _nsRead _updatedEvent
       with_data with_nsWritten with_nsRead with_updatedEvent
       default from_option id] in *.

Section Window.
Context {A : Type}.
Implicit Types (b : CircularBuffer A) (data : list A) (l : list Z).

Lemma phys_lt n i : (0 < n)%nat -> (phys n i < n)%nat.
Proof.
  intros Hn. unfold phys.
  pose proof (Z.mod_pos_bound i (Z.of_nat n)). lia.
Qed.

Lemma np_index_mod n i :
  (0 < n)%nat -> np_index n (np_mod (Z.of_nat n) i) = Some (phys n i).
Proof.
  intros Hn. unfold np_index, np_mod, phys.
  pose proof (Z.mod_pos_bound i (Z.of_nat n)).
  repeat case_decide; first [lia | reflexivity].
Qed.

Lemma mapM_np_index_window n l :
  l = [] \/ (0 < n)%nat ->
  mapM (np_index n) (np_mod (Z.of_nat n) <$> l) = Some (phys n <$> l).
Proof.
  intros [-> | Hn]; [reflexivity|].
  induction l as [|i l IH]; [reflexivity|].
  rewrite !fmap_cons. cbn [mapM]. rewrite np_index_mod by done.
  cbn. rewrite IH. reflexivity.
Qed.

Lemma mapM_lookup_phys data l :
  l = [] \/ (0 < length data)%nat ->
  exists r, mapM (fun i => data !! i) (phys (length data) <$> l) = Some r /\
            Forall2 (fun i x => data !! phys (length data) i = Some x) l r.
Proof.
  intros [-> | Hn]; [exists []; split; [reflexivity | constructor]|].
  induction l as [|i l (r & Hr & HF)]; [exists []; split; [reflexivity | constructor]|].
  destruct (lookup_lt_is_Some_2 data (phys (length data) i)) as [x Hx];
    [by apply phys_lt|].
  exists (x :: r). split; [|by constructor].
  rewrite fmap_cons. cbn [mapM]. rewrite Hx. cbn. rewrite Hr. reflexivity.
Qed.

Lemma getitem_window b l :
  l = [] \/ 0 < capacity b ->
  exists r, getitem (np_mod (capacity b) <$> l) b = Returned r b /\
            Forall2 (fun i x => _data b !! phys (length (_data b)) i = Some x) l r.
Proof.
  intros H. unfold capacity in *.
  assert (H' : l = [] \/ (0 < length (_data b))%nat) by (destruct H; [by left | right; lia]).
  destruct (mapM_lookup_phys (_data b) l H') as (r & Hr & HF).
  exists r. split; [|done].
  py_unfold. rewrite mapM_np_index_window by done. rewrite Hr. reflexivity.
Qed.

Lemma setitem_window b l (values : list A) :
  l = [] \/ 0 < capacity b ->
  setitem (np_mod (capacity b) <$> l) values b
  = Returned tt (with_data (np_put (_data b) (phys (length (_data b)) <$> l) values) b).
Proof.
  intros H. unfold capacity in *.
  assert (H' : l = [] \/ (0 < length (_data b))%nat) by (destruct H; [by left | right; lia]).
  py_unfold. rewrite mapM_np_index_window by done. reflexivity.
Qed.

End Window.

(** ** Normal forms of [write] and [read] *)

Section NormalForms.
Context {A : Type}.
Implicit Types (b : CircularBuffer A) (data : list A) (l : list Z).

Lemma length_np_put data (w : list nat) (values : list A) :
  length (np_put data w values) = length data.
Proof.
  revert data values. induction w as [|i w IH]; intros d [|v vs]; cbn; try reflexivity.
  rewrite IH, length_insert. reflexivity.
Qed.

Lemma capacity_stored b data a : capacity (stored b data a) = capacity b.
Proof. unfold capacity, stored. cbn. rewrite length_np_put. reflexivity. Qed.

Lemma arange_nil_iff lo hi : arange lo hi = [] <-> hi <= lo.
Proof.
  unfold arange. split; intros H.
  - apply (f_equal length) in H. rewrite length_seqZ in H. cbn in H. lia.
  - apply seqZ_nil. lia.
Qed.

Lemma mapM_np_index_zero l : l <> [] -> mapM (np_index 0) (np_mod 0 <$> l) = None.
Proof. destruct l as [|i l]; [done|]. intros _. reflexivity. Qed.

Lemma write_eq b data at_ :
  write data at_ b =
    let a := write_at b at_ in
    if decide (a < 0) then Raised WriteBeforeStart b
    else if decide (_nsWritten b < a) then Raised WriteSkip b
    else if decide (a < _nsRead b) then Raised WriteBeforeRead b
    else if decide (length data = 0%nat \/ 0 < capacity b) then
      let s := stored b data a in
      if decide (_nsRead b < _nsWritten s - capacity b) then
        if _allowOverflow b
        then Returned tt (with_updatedEvent true (with_nsRead (_nsWritten s - capacity b) s))
        else Raised BufferOverflow s
      else Returned tt (with_updatedEvent true s)
    else Raised NumpyIndexError b.
Proof.
  unfold write, write_at. cbn zeta.
  unfold mbind at 1, Py_bind, bind, self. cbn beta iota.
  set (a := if decide (default (_nsWritten b) at_ < 0) then _ else _).
  destruct (decide (a < 0)); [reflexivity|].
  destruct (decide (_nsWritten b < a)); [reflexivity|].
  destruct (decide (a < _nsRead b)); [reflexivity|].
  cbv beta iota delta [mbind Py_bind bind _getWindow self mret Py_ret ret].
  set (l := arange a (a + Z.of_nat (length data))).
  destruct (decide (length data = 0%nat \/ 0 < capacity b)) as [Hc|Hc].
  - rewrite setitem_window.
    2:{ destruct Hc as [Hc|Hc]; [left | by right].
        apply arange_nil_iff. lia. }
    cbv beta iota delta [assign _checkOverflow mbind Py_bind bind self raise mret Py_ret ret].
    fold l.
    change (with_nsWritten _ (with_data _ b)) with (stored b data a).
    pose proof (capacity_stored b data a) as Hcap.
    rewrite Hcap.
    change (_nsRead (stored b data a)) with (_nsRead b).
    change (_allowOverflow (stored b data a)) with (_allowOverflow b).
    case_decide; [destruct (_allowOverflow b)|]; reflexivity.
  - cbv beta iota delta [setitem mbind Py_bind bind self raise capacity] in *.
    assert (length (_data b) = 0%nat) as -> by lia.
    rewrite mapM_np_index_zero; [reflexivity|].
    intros Hl. apply arange_nil_iff in Hl. lia.
Qed.

Lemma read_Raised b frm to advance :
  let f := default (_nsRead b) frm in
  let t := read_to b to in
  (t < f -> read frm to advance b = Raised ReadNegativeLength b) /\
  (f <= t -> f < _nsWritten b - capacity b ->
     read frm to advance b = Raised ReadPastCapacity b) /\
  (f <= t -> _nsWritten b - capacity b <= f -> _nsWritten b < t ->
     read frm to advance b = Raised ReadPastWrite b).
Proof.
  cbn zeta. unfold read, read_to. cbn zeta.
  cbv beta iota delta [mbind Py_bind bind self raise].
  set (t := if decide (default (_nsWritten b) to < 0) then _ else _).
  set (f := default (_nsRead b) frm).
  repeat split; intros;
    destruct (decide (t < f)); try lia; try reflexivity;
    destruct (decide (f < _nsWritten b - capacity b)); try lia; try reflexivity;
    destruct (decide (_nsWritten b < t)); try lia; reflexivity.
Qed.

Lemma read_Returned b frm to advance :
  let f := default (_nsRead b) frm in
  let t := read_to b to in
  f <= t -> _nsWritten b - capacity b <= f -> t <= _nsWritten b ->
  t = f \/ 0 < capacity b ->
  exists r,
    read frm to advance b = Returned r (if advance then with_nsRead t b else b) /\
    Forall2 (fun i x => _data b !! phys (length (_data b)) i = Some x) (arange f t) r.
Proof.
  cbn zeta. intros H1 H2 H3 H4.
  set (b' := if advance then with_nsRead (read_to b to) b else b).
  destruct (getitem_window b' (arange (default (_nsRead b) frm) (read_to b to)))
    as (r & Hr & HF).
  { replace (capacity b') with (capacity b) by (subst b'; by destruct advance).
    destruct H4 as [H4|H4]; [left | by right]. apply arange_nil_iff. lia. }
  replace (capacity b') with (capacity b) in Hr by (subst b'; by destruct advance).
  replace (_data b') with (_data b) in HF by (subst b'; by destruct advance).
  exists r. split; [|done].
  unfold read, read_to in *. cbn zeta in *.
  cbv beta iota delta [mbind Py_bind bind self raise].
  set (t := if decide (default (_nsWritten b) to < 0) then _ else _) in *.
  set (f := default (_nsRead b) frm) in *.
  destruct (decide (t < f)); [lia|].
  destruct (decide (f < _nsWritten b - capacity b)); [lia|].
  destruct (decide (_nsWritten b < t)); [lia|].
  cbv beta iota delta [mbind Py_bind bind _getWindow self mret Py_ret ret assign].
  subst b'. destruct advance; exact Hr.
Qed.

Lemma getitem_inv b l r b' :
  getitem (np_mod (capacity b) <$> l) b = Returned r b' ->
  b' = b /\
  Forall2 (fun i x => _data b !! phys (length (_data b)) i = Some x) l r.
Proof.
  intros H.
  destruct (decide (l = [] \/ 0 < capacity b)) as [Hc|Hc].
  - destruct (getitem_window b l Hc) as (r' & Hr' & HF).
    rewrite Hr' in H. injection H as <- <-. done.
  - exfalso. revert H.
    cbv beta iota delta [getitem mbind Py_bind bind self raise capacity] in *.
    assert (length (_data b) = 0%nat) as -> by lia.
    rewrite mapM_np_index_zero; [discriminate|].
    intros ->. apply Hc. by left.
Qed.

Lemma read_inv b frm to advance r b' :
  read frm to advance b = Returned r b' ->
  let f := default (_nsRead b) frm in
  let t := read_to b to in
  f <= t /\ _nsWritten b - capacity b <= f /\ t <= _nsWritten b /\
  t = default (_nsWritten b) to /\
  b' = (if advance then with_nsRead t b else b) /\
  Forall2 (fun i x => _data b !! phys (length (_data b)) i = Some x) (arange f t) r.
Proof.
  cbn zeta. unfold read, read_to. cbn zeta.
  cbv beta iota delta [mbind Py_bind bind self raise].
  set (t := if decide (default (_nsWritten b) to < 0) then _ else _).
  set (f := default (_nsRead b) frm).
  destruct (decide (t < f)); [discriminate|].
  destruct (decide (f < _nsWritten b - capacity b)); [discriminate|].
  destruct (decide (_nsWritten b < t)) as [|Hw]; [discriminate|].
  cbv beta iota delta [mbind Py_bind bind _getWindow self mret Py_ret ret assign].
  intros H.
  assert (Ht : t = default (_nsWritten b) to).
  { revert Hw. unfold t.
    destruct (decide (default (_nsWritten b) to < 0)); intros; [lia | reflexivity]. }
  repeat (split; [first [lia | done]|]).
  destruct advance.
  - change (capacity b) with (capacity (with_nsRead t b)) in H.
    apply getitem_inv in H as [-> HF]. done.
  - apply getitem_inv in H as [-> HF]. done.
Qed.

End NormalForms.

Ltac solve_cursor :=
  unfold read_to, write_at, capacity in *; cbn [default from_option id] in *;
  repeat match goal with
         | |- context [decide ?P] => destruct (decide P)
         | H : context [decide ?P] |- _ => destruct (decide P)
         end;
  first [lia | done].

Section Cursors.
Context {A : Type}.
Implicit Types (b : CircularBuffer A) (data : list A).

(** C7. Assigning [v] to [nsWritten] returns exactly when
    [0 <= v <= _nsWritten]: a negative [v] raises 'Cannot rewind past 0', a
    [v] above the counter raises an error too, and on success the write
    counter is [v] and the read counter is lowered to [v] when it was above
    it. *)
Theorem nsWritten_setter_spec b (v : Z) :
  (v < 0 -> nsWritten_setter v b = Raised RewindPastZero b) /\
  (_nsWritten b < v -> exists e, nsWritten_setter v b = Raised e b) /\
  (0 <= v <= _nsWritten b ->
     nsWritten_setter v b =
       Returned tt (mkCircularBuffer (_data b) (_allowOverflow b) v
                      (if decide (v < _nsRead b) then v else _nsRead b) true)) /\
  (forall b', nsWritten_setter v b = Returned tt b' -> 0 <= v <= _nsWritten b).
Proof.
  repeat split; intros; py_unfold; py_cases;
    try lia; try discriminate; eauto.
Qed.

(** C8. Assigning to [nsRead] a value below [_nsWritten - capacity]
    raises an error (the capacity error when the value is otherwise a legal
    rewind), while the value [_nsWritten - capacity] itself is accepted when
    it is not negative and not above the read counter. *)
Theorem nsRead_setter_capacity_boundary b (v : Z) :
  (v < _nsWritten b - capacity b -> exists e, nsRead_setter v b = Raised e b) /\
  (0 <= v <= _nsRead b -> v < _nsWritten b - capacity b ->
     nsRead_setter v b = Raised RewindPastCapacity b) /\
  (v = _nsWritten b - capacity b -> 0 <= v -> v <= _nsRead b ->
     nsRead_setter v b =
       Returned tt (mkCircularBuffer (_data b) (_allowOverflow b) (_nsWritten b) v true)).
Proof.
  repeat split; intros; py_unfold; py_cases;
    try lia; try discriminate; eauto.
Qed.

(** What [read] and the two properties do on an overflowed buffer under
    [allowOverflow]. *)
Lemma overflowed_read_and_accessors b :
  _allowOverflow b = true -> overflowed b ->
  (forall advance, read None None advance b = Raised ReadPastCapacity b) /\
  (forall to advance, exists e, read None to advance b = Raised e b) /\
  nsRead b = Returned (_nsWritten b - capacity b)
               (with_nsRead (_nsWritten b - capacity b) b) /\
  nsAvailable b = Returned (capacity b)
                    (with_nsRead (_nsWritten b - capacity b) b) /\
  (0 <= _nsWritten b -> forall advance, exists r b',
     read None None advance (with_nsRead (_nsWritten b - capacity b) b)
     = Returned r b').
Proof.
  unfold overflowed. intros Hallow Hover. split; [|split; [|split; [|split]]].
  - intros advance.
    pose proof (read_Raised b None None advance) as (_ & H & _).
    apply H; [|done]. clear H. solve_cursor.
  - intros to advance.
    pose proof (read_Raised b None to advance) as (H1 & H2 & _). cbn in H1, H2.
    destruct (decide (read_to b to < _nsRead b)); [eauto|].
    eexists. apply H2; [lia | done].
  - py_unfold. py_cases; try lia; try congruence.
  - py_unfold. py_cases; try lia; try congruence.
    do 2 f_equal. lia.
  - intros Hw advance.
    set (b1 := with_nsRead (_nsWritten b - capacity b) b).
    destruct (read_Returned b1 None None advance) as (r & Hr & _).
    1-4: subst b1; unfold read_to, capacity, with_nsRead in *; cbn [default _nsRead _nsWritten _data] in *.
    1-4: solve_cursor.
    eauto.
Qed.

(** [write] is its storing part followed by its checking part. *)
Lemma write_split b data at_ :
  write data at_ b = (write_store data at_;; write_check) b.
Proof.
  unfold write, write_store, write_check.
  cbv beta iota delta [mbind Py_bind bind self raise mret Py_ret ret _getWindow].
  cbn zeta.
  repeat (match goal with |- context [decide ?P] => destruct (decide P) end;
          try reflexivity).
  all: destruct (setitem _ data b); reflexivity.
Qed.

Lemma write_store_inv b data at_ s :
  write_store data at_ b = Returned tt s ->
  s = stored b data (write_at b at_) /\ 0 <= write_at b at_.
Proof.
  unfold write_store, write_at. cbn zeta.
  cbv beta iota delta [mbind Py_bind bind self raise mret Py_ret ret _getWindow].
  set (a := if decide (default (_nsWritten b) at_ < 0) then _ else _).
  destruct (decide (a < 0)); [discriminate|].
  destruct (decide (_nsWritten b < a)); [discriminate|].
  destruct (decide (a < _nsRead b)); [discriminate|].
  set (l := arange a (a + Z.of_nat (length data))).
  destruct (decide (l = [] \/ 0 < capacity b)) as [Hc|Hc].
  - rewrite setitem_window by done. unfold assign. intros [= <-].
    split; [reflexivity | lia].
  - cbv beta iota delta [setitem mbind Py_bind bind self raise capacity] in *.
    assert (length (_data b) = 0%nat) as -> by lia.
    rewrite mapM_np_index_zero; [discriminate|]. tauto.
Qed.

Lemma call_keeps_policy b (c : Call) :
  _allowOverflow (call c b) = _allowOverflow b.
Proof.
  destruct c; unfold call.
  - rewrite write_eq. cbn zeta.
    repeat case_decide; try destruct (_allowOverflow b) eqn:?; cbn; congruence.
  - py_unfold. py_cases; cbn; congruence.
  - py_unfold. py_cases; cbn; congruence.
  - py_unfold. py_cases; cbn; congruence.
  - py_unfold. py_cases; cbn; congruence.
  - py_unfold. py_cases; cbn; congruence.
  - py_unfold. py_cases; cbn; congruence.
  - py_unfold. py_cases; cbn; congruence.
  - py_unfold. py_cases; cbn; congruence.
Qed.

Lemma call_keeps_not_overflowed b (c : Call) :
  _allowOverflow b = true -> ~ overflowed b -> ~ overflowed (call c b).
Proof.
  unfold overflowed. intros Hallow Hno. destruct c; unfold call.
  - rewrite write_eq. cbn zeta. rewrite Hallow.
    repeat case_decide; cbn [final]; try exact Hno;
      unfold capacity, stored in *; cbn in *; rewrite ?length_np_put; lia.
  - py_unfold. py_cases; unfold capacity in *; cbn; lia.
  - py_unfold. py_cases; unfold capacity in *; cbn; lia.
  - py_unfold. py_cases; unfold capacity in *; cbn; lia.
  - py_unfold. py_cases; unfold capacity in *; cbn; lia.
  - py_unfold. py_cases; unfold capacity in *; cbn; lia.
  - py_unfold. py_cases; unfold capacity in *; cbn; lia.
  - py_unfold. py_cases; unfold capacity in *; cbn; lia.
  - py_unfold. py_cases; unfold capacity in *; cbn; lia.
Qed.

(** Under [allowOverflow] no run of completed calls leaves a buffer
    overflowed. *)
Lemma reachable_not_overflowed b :
  reachable b -> _allowOverflow b = true -> ~ overflowed b.
Proof.
  induction 1 as [C zero allowOverflow | b c Hb IH]; intros Hallow.
  - unfold overflowed, capacity. cbn. lia.
  - rewrite call_keeps_policy in Hallow.
    apply call_keeps_not_overflowed; auto.
Qed.

(** C10, amended. Under [allowOverflow] a buffer made by completed calls is
    never overflowed; the overflowed state is the one inside [write], after
    the assignment to [_nsWritten] and before the overflow check. A [read]
    that meets this state with the default [frm] raises and leaves the read
    counter where it was (with the default [to]: 'Cannot read past
    (circular) buffer size'; with a given [to] that error or the one for
    [to < frm]), since it takes the field [_nsRead] without the overflow
    check. The read counter is moved to [_nsWritten - capacity] by the
    overflow check, wherever it runs: in the [nsRead] and [nsAvailable]
    properties and in the rest of the [write] itself; after that the
    [read] returns. *)
Theorem read_does_not_clamp b data at_ s :
  reachable b -> _allowOverflow b = true ->
  write_store data at_ b = Returned tt s -> overflowed s ->
  let clamped := with_nsRead (_nsWritten s - capacity s) s in
  ~ overflowed b /\
  write data at_ b = write_check s /\
  (forall advance, read None None advance s = Raised ReadPastCapacity s) /\
  (forall to advance, exists e,
     read None to advance s = Raised e s /\
     (e = ReadNegativeLength \/ e = ReadPastCapacity)) /\
  nsRead s = Returned (_nsWritten s - capacity s) clamped /\
  nsAvailable s = Returned (capacity s) clamped /\
  _checkOverflow s = Returned tt clamped /\
  write_check s = Returned tt (with_updatedEvent true clamped) /\
  (forall advance, exists r b',
     read None None advance clamped = Returned r b').
Proof.
  intros Hb Hallow Hs Hov. cbn zeta.
  assert (Hsplit : write data at_ b = write_check s).
  { rewrite write_split. cbv beta iota delta [mbind Py_bind bind].
    rewrite Hs. reflexivity. }
  apply write_store_inv in Hs as [Hs Ha].
  assert (Hallow' : _allowOverflow s = true) by (subst s; exact Hallow).
  assert (Hw : 0 <= _nsWritten s) by (subst s; cbn; lia).
  destruct (overflowed_read_and_accessors s Hallow' Hov)
    as (Hread & _ & HnsRead & HnsAvail & Hafter).
  split; [by apply reachable_not_overflowed|].
  split; [exact Hsplit|].
  split; [exact Hread|].
  split.
  { intros to advance.
    pose proof (read_Raised s None to advance) as (H1 & H2 & _). cbn in H1, H2.
    unfold overflowed in Hov.
    destruct (decide (read_to s to < _nsRead s)); [eauto|].
    eexists. split; [apply H2; [lia | done] | by right]. }
  split; [exact HnsRead|]. split; [exact HnsAvail|].
  unfold overflowed in Hov. split; [|split; [|by apply Hafter]].
  - py_unfold. py_cases; try lia; congruence.
  - unfold write_check. py_unfold. py_cases; try lia; congruence.
Qed.

(** A negative [at] never leads to a write on a buffer whose write counter
    is not negative: the position becomes [_nsWritten + |at|], past the
    counter. *)
Lemma write_negative_at b data (a : Z) :
  a < 0 -> 0 <= _nsWritten b -> write data (Some a) b = Raised WriteSkip b.
Proof.
  intros Ha Hw. rewrite write_eq. cbn zeta.
  assert (write_at b (Some a) = _nsWritten b - a) as -> by solve_cursor.
  repeat (case_decide; try lia). reflexivity.
Qed.

(** A negative [to] never leads to a read on such a buffer: the end index
    becomes [_nsWritten + |to|], past the counter. *)
Lemma read_negative_to b frm (t : Z) advance :
  t < 0 -> 0 <= _nsWritten b ->
  exists e, read frm (Some t) advance b = Raised e b /\ e <> NumpyIndexError.
Proof.
  intros Ht Hw.
  pose proof (read_Raised b frm (Some t) advance) as (H1 & H2 & H3). cbn in *.
  assert (Hto : read_to b (Some t) = _nsWritten b - t) by solve_cursor.
  destruct (decide (read_to b (Some t) < default (_nsRead b) frm));
    [eexists; split; [by apply H1 | done]|].
  destruct (decide (default (_nsRead b) frm < _nsWritten b - capacity b));
    [eexists; split; [apply H2; [lia | done] | done]|].
  eexists; split; [apply H3; lia | done].
Qed.

(** C2, amended. The index and range errors of [write] and
    [read] are raised before anything is assigned, so the object is left as
    it was; the overflow error of the strict policy is raised by [write]
    only, from the check that follows the store, and leaves the block
    stored and the write counter advanced (the read counter and the event
    are as before); [read] never raises it. *)
Theorem errors_and_their_effect b :
  (forall data at_ e b', write data at_ b = Raised e b' ->
     (e <> BufferOverflow -> b' = b) /\
     (e = BufferOverflow ->
        _allowOverflow b = false /\
        b' = stored b data (write_at b at_) /\
        _nsRead b' = _nsRead b /\ _updatedEvent b' = _updatedEvent b /\
        capacity b < _nsWritten b' - _nsRead b')) /\
  (forall frm to advance e b', read frm to advance b = Raised e b' ->
     e <> BufferOverflow /\ (e <> NumpyIndexError -> b' = b)).
Proof.
  split.
  - intros data at_ e b'. rewrite write_eq. cbn zeta.
    repeat case_decide; try destruct (_allowOverflow b) eqn:Hallow;
      intros [= <- <-]; (split; [done|]); try discriminate.
    intros _. unfold stored in *. cbn in *. repeat split; try done. lia.
  - intros frm to advance e b' H. revert H. py_unfold. py_cases;
      intros [= <- <-]; split; congruence.
Qed.

(** C6. [0 <= _nsRead <= _nsWritten] holds for a new buffer and, when it
    holds before a call of [write], [read] (whatever [advance]), either
    setter, the overflow check or a property, it holds after the call,
    whether the call returned or raised. *)
Theorem cursors_ok_invariant :
  (forall (C : nat) (zero : A) allowOverflow, cursors_ok (init C zero allowOverflow)) /\
  (forall b c, cursors_ok b -> cursors_ok (call c b)).
Proof.
  split; [intros; unfold cursors_ok; cbn; lia|].
  intros b c [H0 H1]. unfold cursors_ok.
  destruct c; unfold call.
  - rewrite write_eq. cbn zeta.
    repeat case_decide; try destruct (_allowOverflow b);
      unfold stored, capacity in *; cbn in *; lia.
  - py_unfold. py_cases; lia.
  - py_unfold. py_cases; lia.
  - py_unfold. py_cases; lia.
  - py_unfold. py_cases; unfold capacity in *; lia.
  - py_unfold. py_cases; lia.
  - py_unfold. py_cases; unfold capacity in *; lia.
  - py_unfold. py_cases; unfold capacity in *; lia.
  - py_unfold. py_cases; lia.
Qed.

(** C9. When a [read] with [advance=True] returns, having ended at [t], the
    read counter is [t]; as long as the read counter is not changed in
    between, a following [read] with the default [frm] is the [read] with
    [frm = t], and what it returns are the samples of the logical indices
    [t], [t+1], ... up to its own end. *)
Theorem consecutive_reads_abut b frm to r1 b1 :
  read frm to true b = Returned r1 b1 ->
  let t := default (_nsWritten b) to in
  _nsRead b1 = t /\
  length r1 = Z.to_nat (t - default (_nsRead b) frm) /\
  forall b2, _nsRead b2 = _nsRead b1 ->
  forall to2 advance2,
    read None to2 advance2 b2 = read (Some t) to2 advance2 b2 /\
    forall r2 b3, read None to2 advance2 b2 = Returned r2 b3 ->
      length r2 = Z.to_nat (default (_nsWritten b2) to2 - t) /\
      Forall2 (fun i x => _data b2 !! phys (length (_data b2)) i = Some x)
        (arange t (default (_nsWritten b2) to2)) r2.
Proof.
  intros H. apply read_inv in H as (Hft & Hcap & Htw & Ht & -> & HF).
  cbn zeta. rewrite Ht in *. cbn [_nsRead with_nsRead].
  split; [reflexivity|]. split.
  { apply Forall2_length in HF. rewrite <- HF. unfold arange.
    rewrite length_seqZ. reflexivity. }
  intros b2 Hb2 to2 advance2. cbn [_nsRead with_nsRead] in Hb2. split.
  { unfold read. cbv beta iota delta [mbind Py_bind bind self]. cbn [default].
    rewrite Hb2. reflexivity. }
  intros r2 b3 H2. apply read_inv in H2 as (_ & _ & _ & Ht2 & _ & HF2).
  cbn [default] in HF2. rewrite Ht2, Hb2 in HF2. split; [|exact HF2].
  apply Forall2_length in HF2. rewrite <- HF2. unfold arange.
  rewrite length_seqZ. reflexivity.
Qed.

End Cursors.

(** ** Storing and reading back *)

Section RoundTrip.
Context {A : Type}.
Implicit Types (b : CircularBuffer A) (data : list A) (l : list Z).

Lemma np_put_notin data (w : list nat) (values : list A) (i : nat) :
  i ∉ w -> np_put data w values !! i = data !! i.
Proof.
  revert data values. induction w as [|j w IH]; intros d [|v vs] Hi; cbn; try reflexivity.
  apply not_elem_of_cons in Hi as [Hij Hi].
  rewrite IH by done. apply list_lookup_insert_ne. congruence.
Qed.

Lemma np_put_lookup data (w : list nat) (values : list A) :
  NoDup w -> length w = length values ->
  Forall (fun i => (i < length data)%nat) w ->
  Forall2 (fun i v => np_put data w values !! i = Some v) w values.
Proof.
  revert data values. induction w as [|j w IH]; intros d [|v vs] Hnd Hlen Hlt;
    try discriminate; [constructor|].
  apply NoDup_cons in Hnd as [Hj Hnd]. apply Forall_cons in Hlt as [Hjd Hlt].
  cbn. constructor.
  - rewrite np_put_notin by done. by apply list_lookup_insert_eq.
  - apply IH; [done | by injection Hlen |].
    eapply Forall_impl; [exact Hlt|]. intros i Hi. by rewrite length_insert.
Qed.

(** Fewer than [n] consecutive logical indices fall on distinct cells. *)
Lemma phys_inj_window (n : nat) (a len x y : Z) :
  len <= Z.of_nat n -> a <= x < a + len -> a <= y < a + len ->
  phys n x = phys n y -> x = y.
Proof.
  intros Hlen Hx Hy Hxy. unfold phys in Hxy.
  assert (Hn : 0 < Z.of_nat n) by lia.
  pose proof (Z.mod_pos_bound x (Z.of_nat n) Hn).
  pose proof (Z.mod_pos_bound y (Z.of_nat n) Hn).
  apply Z2Nat.inj in Hxy; [|lia..].
  pose proof (Z.div_mod x (Z.of_nat n)) as Ex.
  pose proof (Z.div_mod y (Z.of_nat n)) as Ey.
  rewrite Hxy in Ex.
  set (qx := x / Z.of_nat n) in *. set (qy := y / Z.of_nat n) in *.
  set (r := y mod Z.of_nat n) in *.
  destruct (Z.lt_trichotomy qx qy) as [Hq | [Hq | Hq]]; nia.
Qed.

Lemma NoDup_phys_arange (n : nat) (a len : Z) :
  len <= Z.of_nat n -> NoDup (phys n <$> arange a (a + len)).
Proof.
  intros Hlen. apply NoDup_fmap_2_strong; [|apply NoDup_seqZ].
  intros x y Hx Hy. unfold arange in *.
  apply elem_of_seqZ in Hx, Hy. apply (phys_inj_window n a len); lia.
Qed.

Lemma lookups_functional (f : Z -> option A) l (r r' : list A) :
  Forall2 (fun i x => f i = Some x) l r ->
  Forall2 (fun i x => f i = Some x) l r' -> r = r'.
Proof.
  intros H. revert r'. induction H as [|i x l r Hi _ IH]; intros r' H';
    inversion H' as [|? x' ? r'' Hi' Hr']; subst; [reflexivity|].
  f_equal; [congruence | by apply IH].
Qed.

(** What a returning [write] leaves behind. *)
Lemma write_Returned_inv b data at_ b1 :
  write data at_ b = Returned tt b1 ->
  let a := write_at b at_ in
  0 <= a <= _nsWritten b /\ _nsRead b <= a /\
  (length data = 0%nat \/ 0 < capacity b) /\
  _data b1 = _data (stored b data a) /\
  _nsWritten b1 = a + Z.of_nat (length data) /\
  _allowOverflow b1 = _allowOverflow b /\
  _updatedEvent b1 = true /\
  _nsRead b1 = (if decide (_nsRead b < _nsWritten b1 - capacity b)
                then _nsWritten b1 - capacity b else _nsRead b).
Proof.
  rewrite write_eq. cbn zeta.
  repeat case_decide; try destruct (_allowOverflow b) eqn:Hallow;
    intros [= <-]; cbn;
    repeat split; try first [lia | done];
    case_decide; first [done | cbn in *; lia].
Qed.

Lemma stored_lookup b data (a : Z) :
  Z.of_nat (length data) <= capacity b ->
  Forall2 (fun i x => _data (stored b data a) !! phys (length (_data b)) i = Some x)
    (arange a (a + Z.of_nat (length data))) data.
Proof.
  intros Hlen. unfold stored, capacity in *.
  cbn [_data with_data with_nsWritten].
  set (w := phys (length (_data b)) <$> arange a (a + Z.of_nat (length data))).
  assert (H : Forall2 (fun j x => np_put (_data b) w data !! j = Some x) w data).
  { destruct (decide (length data = 0%nat)) as [H0|H0].
    { subst w. destruct data; [|done]. cbn [length].
      rewrite (proj2 (arange_nil_iff _ _)) by lia. constructor. }
    apply np_put_lookup.
    - by apply NoDup_phys_arange.
    - subst w. unfold arange. rewrite length_fmap, length_seqZ. lia.
    - apply Forall_fmap, Forall_forall. intros i _. apply phys_lt. lia. }
  subst w. apply Forall2_fmap_l in H. exact H.
Qed.

Lemma write_BufferOverflow_inv b data at_ b1 :
  write data at_ b = Raised BufferOverflow b1 ->
  let a := write_at b at_ in
  0 <= a <= _nsWritten b /\ _nsRead b <= a /\
  (length data = 0%nat \/ 0 < capacity b) /\
  _allowOverflow b = false /\
  b1 = stored b data a.
Proof.
  rewrite write_eq. cbn zeta.
  repeat case_decide; try destruct (_allowOverflow b) eqn:Hallow;
    intros [= <-]; repeat split; first [lia | done].
Qed.

(** Reading back the range a block was stored at, as long as the block is
    no longer than the capacity (it has not overwritten its own head). *)
Lemma read_back b data at_ b1 :
  write data at_ b = Returned tt b1 \/ write data at_ b = Raised BufferOverflow b1 ->
  let a := default (_nsWritten b) at_ in
  0 <= a -> Z.of_nat (length data) <= capacity b ->
  forall advance, exists b2,
    read (Some a) (Some (a + Z.of_nat (length data))) advance b1 = Returned data b2.
Proof.
  cbn zeta. intros Hw Ha Hlen advance.
  assert (Hat : write_at b at_ = default (_nsWritten b) at_).
  { unfold write_at. cbn zeta.
    destruct (decide (default (_nsWritten b) at_ < 0)); [lia | reflexivity]. }
  set (a := default (_nsWritten b) at_) in *.
  assert (Hb1 : _data b1 = _data (stored b data a) /\
                _nsWritten b1 = a + Z.of_nat (length data) /\
                (length data = 0%nat \/ 0 < capacity b)).
  { destruct Hw as [Hw|Hw].
    - apply write_Returned_inv in Hw. cbn zeta in Hw. rewrite Hat in Hw. tauto.
    - apply write_BufferOverflow_inv in Hw. cbn zeta in Hw. rewrite Hat in Hw.
      destruct Hw as (_ & _ & H0 & _ & ->). done. }
  destruct Hb1 as (Hd & Hn & H0).
  assert (Hcap : capacity b1 = capacity b).
  { unfold capacity. rewrite Hd. apply capacity_stored. }
  assert (Hto : read_to b1 (Some (a + Z.of_nat (length data)))
                = a + Z.of_nat (length data)).
  { unfold read_to. cbn [default from_option id].
    destruct (decide (a + Z.of_nat (length data) < 0)); [lia | reflexivity]. }
  destruct (read_Returned b1 (Some a) (Some (a + Z.of_nat (length data))) advance)
    as (r & Hr & HF); cbn [default from_option id]; rewrite ?Hto, ?Hcap, ?Hn; try lia.
  rewrite Hto in HF. cbn [default from_option id] in HF.
  pose proof (stored_lookup b data a Hlen) as HS.
  assert (Hlen1 : length (_data b1) = length (_data b)).
  { unfold capacity in Hcap. lia. }
  rewrite Hlen1, Hd in HF.
  pose proof (lookups_functional _ _ _ _ HS HF) as Hrd. subst r.
  rewrite Hto in Hr. eauto.
Qed.

End RoundTrip.

(** ** The scenario of a buffer of four samples *)

Example scenario_first_write allowOverflow :
  write [1;2;3;4] (Some 0) (init 4 0 allowOverflow)
  = Returned tt (mkCircularBuffer [1;2;3;4] allowOverflow 4 0 true).
Proof. destruct allowOverflow; reflexivity. Qed.

(** C5. A buffer of four samples: writing [1,2,3,4] at 0 leaves
    [_nsWritten = 4]; writing [5,6] at 4 leaves [_nsWritten = 6] and the
    storage [5,6,3,4] (under the strict policy this second call ends with the
    overflow error, raised after the store); [read(2, 6)] then returns
    [3,4,5,6]. In general a block no longer than the capacity that [write]
    stored is returned unchanged by reading its range back. *)
Theorem scenario_and_round_trip :
  (forall allowOverflow,
     let b0 := init 4 0 allowOverflow in
     let b1 := final (write [1;2;3;4] (Some 0) b0) in
     let b2 := final (write [5;6] (Some 4) b1) in
     write [1;2;3;4] (Some 0) b0 = Returned tt b1 /\ _nsWritten b1 = 4 /\
     write [5;6] (Some 4) b1
       = (if allowOverflow then Returned tt b2 else Raised BufferOverflow b2) /\
     _nsWritten b2 = 6 /\ _data b2 = [5;6;3;4] /\
     read (Some 2) (Some 6) true b2 = Returned [3;4;5;6] (with_nsRead 6 b2)) /\
  (forall (A : Type) (b : CircularBuffer A) (data : list A) at_ b1,
     write data at_ b = Returned tt b1 ->
     let a := default (_nsWritten b) at_ in
     0 <= a -> Z.of_nat (length data) <= capacity b ->
     forall advance, exists b2,
       read (Some a) (Some (a + Z.of_nat (length data))) advance b1
       = Returned data b2).
Proof.
  split.
  - intros [|]; cbn zeta; repeat split; reflexivity.
  - intros A b data at_ b1 Hw. cbn zeta. intros Ha Hlen advance.
    apply (read_back b data at_ b1); auto.
Qed.

(** ** Appending until the buffer overflows *)

Section Overflow.
Context {A : Type}.
Implicit Types (b : CircularBuffer A) (data : list A) (blocks : list (list A)).

Lemma total_cons data blocks :
  total (data :: blocks) = Z.of_nat (length data) + total blocks.
Proof. unfold total. cbn. rewrite length_app. lia. Qed.

Lemma total_nonneg blocks : 0 <= total blocks.
Proof. unfold total. lia. Qed.

Lemma write_append_eq b data :
  cursors_ok b -> 0 < capacity b ->
  write data None b =
    let s := stored b data (_nsWritten b) in
    if decide (_nsRead b < _nsWritten s - capacity b) then
      if _allowOverflow b
      then Returned tt (with_updatedEvent true (with_nsRead (_nsWritten s - capacity b) s))
      else Raised BufferOverflow s
    else Returned tt (with_updatedEvent true s).
Proof.
  intros [H0 H1] HC. rewrite write_eq. cbn zeta.
  assert (write_at b None = _nsWritten b) as ->.
  { unfold write_at. cbn. destruct (decide (_nsWritten b < 0)); [lia | reflexivity]. }
  destruct (decide (_nsWritten b < 0)); [lia|].
  destruct (decide (_nsWritten b < _nsWritten b)); [lia|].
  destruct (decide (_nsWritten b < _nsRead b)); [lia|].
  destruct (decide (length data = 0%nat \/ 0 < capacity b)); [reflexivity | tauto].
Qed.

Lemma appends_within_capacity blocks b :
  _nsRead b = 0 -> 0 <= _nsWritten b -> 0 < capacity b ->
  _nsWritten b + total blocks <= capacity b ->
  exists b', appends blocks b = Returned tt b' /\
             _nsRead b' = 0 /\ _nsWritten b' = _nsWritten b + total blocks /\
             capacity b' = capacity b /\ _allowOverflow b' = _allowOverflow b.
Proof.
  revert b. induction blocks as [|data rest IH]; intros b Hr Hw HC Hfit.
  - exists b. unfold total. cbn. repeat split; try done. lia.
  - rewrite total_cons in Hfit. pose proof (total_nonneg rest).
    set (b1 := with_updatedEvent true (stored b data (_nsWritten b))).
    assert (Hcap1 : capacity b1 = capacity b) by apply capacity_stored.
    destruct (IH b1) as (b' & Hrun & Hr' & Hw' & HC' & Ha');
      [done | cbn; lia | lia | cbn; lia |].
    exists b'. cbn [appends]. cbv beta iota delta [mbind Py_bind bind].
    rewrite write_append_eq by (unfold cursors_ok; first [lia | done]).
    cbn zeta. cbn [stored _nsWritten with_nsWritten].
    destruct (decide (_nsRead b < _nsWritten b + Z.of_nat (length data) - capacity b));
      [lia|].
    fold b1. rewrite Hrun. rewrite Hw', total_cons. cbn in *.
    repeat split; first [lia | done | congruence].
Qed.

(** C4. Starting from a new buffer whose read counter stays at 0, a run of
    appended blocks holding at most [C] samples in all returns without an
    error (also at exactly [C]); the next block, which takes the count above
    [C], makes [write] raise the overflow error under the strict policy, and
    under [allowOverflow] makes it return with the read counter at
    [_nsWritten - C]. *)
Theorem overflow_boundary (C : nat) (zero : A) blocks data :
  (0 < C)%nat ->
  total blocks <= Z.of_nat C ->
  Z.of_nat C < total blocks + Z.of_nat (length data) ->
  forall allowOverflow, exists b,
    appends blocks (init C zero allowOverflow) = Returned tt b /\
    _nsRead b = 0 /\ _nsWritten b = total blocks /\
    exists b',
      _nsWritten b' = total blocks + Z.of_nat (length data) /\
      if allowOverflow
      then write data None b = Returned tt b' /\
           _nsRead b' = _nsWritten b' - Z.of_nat C /\
           nsRead b' = Returned (_nsWritten b' - Z.of_nat C) b'
      else write data None b = Raised BufferOverflow b' /\ _nsRead b' = 0.
Proof.
  intros HC Hfit Hover allowOverflow.
  assert (Hcap0 : capacity (init C zero allowOverflow) = Z.of_nat C).
  { unfold capacity, init. cbn. by rewrite length_replicate. }
  pose proof (total_nonneg blocks) as Htot.
  destruct (appends_within_capacity blocks (init C zero allowOverflow))
    as (b & Hrun & Hr & Hw & Hcap & Hallow);
    [done | done | lia | cbn; lia |].
  cbn in Hw, Hallow. rewrite Hcap0 in Hcap.
  exists b. repeat (split; [first [done | lia]|]).
  rewrite write_append_eq by (unfold cursors_ok; lia).
  cbn zeta. cbn [stored _nsWritten with_nsWritten]. rewrite Hcap, Hr, Hw, Hallow.
  destruct (decide (0 < 0 + total blocks + Z.of_nat (length data) - Z.of_nat C));
    [|lia].
  destruct allowOverflow.
  - eexists. split; [|split; [reflexivity|split; [reflexivity|]]].
    { cbn. lia. }
    unfold nsRead, _checkOverflow.
    cbv beta iota delta [mbind Py_bind bind self mret Py_ret ret].
    cbn [_nsRead _nsWritten with_nsRead with_updatedEvent with_nsWritten].
    match goal with |- context [decide ?P] => destruct (decide P) as [Hlt|] end;
      [|reflexivity].
    exfalso. revert Hlt. unfold capacity. cbn. rewrite length_np_put.
    unfold capacity in Hcap. lia.
  - eexists. split; [|split; [reflexivity | exact Hr]]. cbn. lia.
Qed.

End Overflow.

(** ** Concrete runs *)

(** C1, evaluated on the code. With four samples written, [write([9], at=-1)]
    does not rewrite the last sample: the position becomes [4 - (-1) = 5],
    past the write counter, and the call raises 'Cannot skip and write'. *)
Theorem write_negative_at_is_refused :
  write [1;2;3;4] None (init 4 0 false)
    = Returned tt (mkCircularBuffer [1;2;3;4] false 4 0 true) /\
  write [9] (Some (-1)) (mkCircularBuffer [1;2;3;4] false 4 0 true)
    = Raised WriteSkip (mkCircularBuffer [1;2;3;4] false 4 0 true).
Proof. split; reflexivity. Qed.

(** C3, evaluated on the code. With four samples written and none read,
    [read(to=-1)] does not return the first three samples: the end index
    becomes [4 - (-1) = 5], past the write counter, and the call raises
    'Cannot read past last written sample'. *)
Theorem read_negative_to_is_refused :
  read None (Some (-1)) true (mkCircularBuffer [1;2;3;4] false 4 0 true)
    = Raised ReadPastWrite (mkCircularBuffer [1;2;3;4] false 4 0 true).
Proof. reflexivity. Qed.

(** C2 as stated fails: on a full strict buffer, appending one sample raises
    the overflow error with the sample stored and the write counter moved. *)
Lemma overflow_error_keeps_the_store :
  ~ (forall e b',
       write [5] None (mkCircularBuffer [1;2;3;4] false 4 0 true) = Raised e b' ->
       _data b' = [1;2;3;4] /\ _nsWritten b' = 4 /\ _nsRead b' = 0).
Proof.
  intros H.
  destruct (H BufferOverflow (mkCircularBuffer [5;2;3;4] false 5 0 true) eq_refl)
    as (Hd & _).
  discriminate Hd.
Qed.

Lemma errors_and_their_effect_witness :
  mkCircularBuffer [1;2;3;4] false 4 0 true
    = mkCircularBuffer [1;2;3;4] false 4 0 true /\
  mkCircularBuffer [5;2;3;4] false 5 0 true
    = stored (mkCircularBuffer [1;2;3;4] false 4 0 true) [5] 4.
Proof.
  assert (Hskip : write [9] (Some 7) (mkCircularBuffer [1;2;3;4] false 4 0 true)
                  = Raised WriteSkip (mkCircularBuffer [1;2;3;4] false 4 0 true))
    by reflexivity.
  assert (Hover : write [5] None (mkCircularBuffer [1;2;3;4] false 4 0 true)
                  = Raised BufferOverflow (mkCircularBuffer [5;2;3;4] false 5 0 true))
    by reflexivity.
  assert (Hne : WriteSkip <> BufferOverflow) by discriminate.
  split.
  - exact (proj1 (proj1 (errors_and_their_effect _) _ _ _ _ Hskip) Hne).
  - exact (proj1 (proj2 (proj2 (proj1 (errors_and_their_effect _) _ _ _ _ Hover)
                           eq_refl))).
Defined.

Lemma overflow_boundary_witness :
  exists b,
    appends [[1;2];[3;4]] (init 4 0 true) = Returned tt b /\
    _nsRead b = 0 /\ _nsWritten b = 4 /\
    exists b',
      _nsWritten b' = 5 /\
      write [5] None b = Returned tt b' /\
      _nsRead b' = _nsWritten b' - 4 /\
      nsRead b' = Returned (_nsWritten b' - 4) b'.
Proof.
  assert (H1 : (0 < 4)%nat) by lia.
  assert (H2 : total [[1;2];[3;4]] <= Z.of_nat 4) by (vm_compute; discriminate).
  assert (H3 : Z.of_nat 4 < total [[1;2];[3;4]] + Z.of_nat (length [5]))
    by (vm_compute; reflexivity).
  exact (overflow_boundary 4 0 [[1;2];[3;4]] [5] H1 H2 H3 true).
Defined.

Lemma scenario_and_round_trip_witness :
  exists b2,
    read (Some 4) (Some 6) true (mkCircularBuffer [5;6;3;4] true 6 2 true)
    = Returned [5;6] b2.
Proof.
  assert (H1 : 0 <= 4) by lia.
  assert (H2 : Z.of_nat (length [5;6])
               <= capacity (mkCircularBuffer [1;2;3;4] true 4 0 true))
    by (vm_compute; discriminate).
  exact (proj2 scenario_and_round_trip Z
           (mkCircularBuffer [1;2;3;4] true 4 0 true) [5;6] (Some 4)
           (mkCircularBuffer [5;6;3;4] true 6 2 true) eq_refl H1 H2 true).
Defined.

Lemma cursors_ok_invariant_witness :
  cursors_ok (call (CallRead None None true)
                (mkCircularBuffer [1;2;3;4] false 4 0 true)).
Proof.
  apply (proj2 cursors_ok_invariant).
  unfold cursors_ok. cbn. lia.
Defined.

Lemma nsWritten_setter_spec_witness :
  nsWritten_setter 2 (mkCircularBuffer [1;2;3;4] false 4 3 false)
  = Returned tt (mkCircularBuffer [1;2;3;4] false 2 2 true).
Proof.
  apply (proj1 (proj2 (proj2
           (nsWritten_setter_spec (mkCircularBuffer [1;2;3;4] false 4 3 false) 2)))).
  cbn. lia.
Defined.

Lemma nsRead_setter_capacity_boundary_witness :
  nsRead_setter 2 (mkCircularBuffer [5;6;3;4] false 6 4 true)
    = Returned tt (mkCircularBuffer [5;6;3;4] false 6 2 true) /\
  exists e, nsRead_setter 1 (mkCircularBuffer [5;6;3;4] false 6 4 true)
            = Raised e (mkCircularBuffer [5;6;3;4] false 6 4 true).
Proof.
  split.
  - apply (proj2 (proj2
             (nsRead_setter_capacity_boundary
                (mkCircularBuffer [5;6;3;4] false 6 4 true) 2))).
    all: unfold capacity; cbn; lia.
  - apply (proj1 (nsRead_setter_capacity_boundary
                    (mkCircularBuffer [5;6;3;4] false 6 4 true) 1)).
    unfold capacity. cbn. lia.
Defined.

Lemma consecutive_reads_abut_witness :
  _nsRead (mkCircularBuffer [1;2;3;4] false 4 3 true) = 3.
Proof.
  apply (proj1 (consecutive_reads_abut
                  (mkCircularBuffer [1;2;3;4] false 4 0 true) None (Some 3)
                  [1;2;3] (mkCircularBuffer [1;2;3;4] false 4 3 true) eq_refl)).
Defined.

(** C10 as stated fails in its last part: with no property used, the two
    writes alone leave the read counter moved from 0 to [6 - 4]; the
    overflow check at the end of [write] has moved it. *)
Lemma write_clamps_without_accessor :
  ~ (forall b1 b2,
       write [1;2;3;4] None (init 4 0 true) = Returned tt b1 ->
       write [5;6] None b1 = Returned tt b2 ->
       _nsRead b2 = _nsRead b1).
Proof.
  intros H.
  specialize (H (mkCircularBuffer [1;2;3;4] true 4 0 true)
                (mkCircularBuffer [5;6;3;4] true 6 2 true) eq_refl eq_refl).
  discriminate H.
Qed.

Lemma read_does_not_clamp_witness :
  read None None true (mkCircularBuffer [5;6;3;4] true 6 0 true)
    = Raised ReadPastCapacity (mkCircularBuffer [5;6;3;4] true 6 0 true) /\
  write [5;6] None (mkCircularBuffer [1;2;3;4] true 4 0 true)
    = write_check (mkCircularBuffer [5;6;3;4] true 6 0 true).
Proof.
  assert (Hb : reachable (mkCircularBuffer [1;2;3;4] true 4 0 true))
    by exact (reachable_call _ (CallWrite [1;2;3;4] None) (reachable_init 4 0 true)).
  assert (Hov : overflowed (mkCircularBuffer [5;6;3;4] true 6 0 true))
    by (unfold overflowed, capacity; cbn; lia).
  destruct (read_does_not_clamp (mkCircularBuffer [1;2;3;4] true 4 0 true)
              [5;6] None (mkCircularBuffer [5;6;3;4] true 6 0 true)
              Hb eq_refl eq_refl Hov) as (_ & Hsplit & Hread & _).
  split; [exact (Hread true) | exact Hsplit].
Defined.

(** ** Further properties of the methods *)

Section Methods.
Context {A : Type}.
Implicit Types (b : CircularBuffer A) (data : list A) (l : list Z).

(** [write] returns exactly when its position is between the read and the
    write counter (and not negative), the storage has room for an index (or
    the block is empty), and the block does not leave the read counter more
    than one capacity behind unless overflow is allowed. *)
Theorem write_returns_iff b data at_ :
  (exists b1, write data at_ b = Returned tt b1) <->
  0 <= write_at b at_ <= _nsWritten b /\ _nsRead b <= write_at b at_ /\
  (length data = 0%nat \/ 0 < capacity b) /\
  (_allowOverflow b = true \/
   write_at b at_ + Z.of_nat (length data) - _nsRead b <= capacity b).
Proof.
  rewrite write_eq. cbn zeta. cbn [stored _nsWritten with_nsWritten].
  destruct (decide (write_at b at_ < 0));
    [split; [intros [? [=]] | lia]|].
  destruct (decide (_nsWritten b < write_at b at_));
    [split; [intros [? [=]] | lia]|].
  destruct (decide (write_at b at_ < _nsRead b));
    [split; [intros [? [=]] | lia]|].
  destruct (decide (length data = 0%nat \/ 0 < capacity b));
    [|split; [intros [? [=]] | tauto]].
  destruct (decide (_nsRead b <
                    write_at b at_ + Z.of_nat (length data) - capacity b)).
  - destruct (_allowOverflow b).
    + split; [intros _; repeat split; first [lia | tauto] | eauto].
    + split; [intros [? [=]]|]. intros (_ & _ & _ & [[=] | H]). lia.
  - split; [intros _; repeat split; first [lia | tauto] | eauto].
Qed.

(** [read] returns exactly when the range is not reversed, starts within
    the last [capacity] samples and ends at or before the write counter; it
    then returns one sample for each index of the range. In particular the
    indexing of the storage never fails. *)
Theorem read_returns_iff b frm to advance :
  let f := default (_nsRead b) frm in
  let t := read_to b to in
  ((exists r b1, read frm to advance b = Returned r b1) <->
   f <= t <= _nsWritten b /\ _nsWritten b - capacity b <= f) /\
  (forall r b1, read frm to advance b = Returned r b1 ->
     length r = Z.to_nat (t - f)) /\
  (forall b1, read frm to advance b <> Raised NumpyIndexError b1).
Proof.
  cbn zeta.
  assert (Hret : default (_nsRead b) frm <= read_to b to <= _nsWritten b ->
                 _nsWritten b - capacity b <= default (_nsRead b) frm ->
                 exists r, read frm to advance b
                   = Returned r (if advance then with_nsRead (read_to b to) b else b)).
  { intros H1 H2.
    destruct (read_Returned b frm to advance) as (r & Hr & _);
      [lia | lia | lia | unfold capacity in *; lia | eauto]. }
  split; [split|split].
  - intros (r & b1 & H). apply read_inv in H. cbn zeta in H. lia.
  - intros [H1 H2]. destruct (Hret H1 H2) as (r & Hr). eauto.
  - intros r b1 H. apply read_inv in H as (_ & _ & _ & _ & _ & HF).
    apply Forall2_length in HF. rewrite <- HF. unfold arange.
    rewrite length_seqZ. reflexivity.
  - intros b1 H.
    pose proof (read_Raised b frm to advance) as (R1 & R2 & R3). cbn zeta in *.
    destruct (decide (read_to b to < default (_nsRead b) frm)) as [H1|H1];
      [rewrite R1 in H by done; discriminate|].
    destruct (decide (default (_nsRead b) frm < _nsWritten b - capacity b)) as [H2|H2];
      [rewrite R2 in H by lia; discriminate|].
    destruct (decide (_nsWritten b < read_to b to)) as [H3|H3];
      [rewrite R3 in H by lia; discriminate|].
    destruct Hret as (r & Hr); [lia | lia |]. rewrite Hr in H. discriminate.
Qed.

(** [nsAvailable] on a buffer whose counters are in order: under the strict
    policy an overflowed buffer makes it raise and nothing changes; in every
    other case it returns the gap between the counters cut down to the
    capacity, so a number between 0 and the capacity. *)
Theorem nsAvailable_bounds b :
  cursors_ok b ->
  (overflowed b /\ _allowOverflow b = false /\
   nsAvailable b = Raised BufferOverflow b) \/
  (exists b', nsAvailable b
              = Returned (Z.min (_nsWritten b - _nsRead b) (capacity b)) b' /\
              0 <= Z.min (_nsWritten b - _nsRead b) (capacity b) <= capacity b /\
              _nsWritten b' = _nsWritten b /\ ~ overflowed b').
Proof.
  intros [H0 H1]. unfold overflowed.
  destruct (decide (_nsRead b < _nsWritten b - capacity b)) as [Hov|Hov].
  - destruct (_allowOverflow b) eqn:Hallow.
    + right. eexists. split; [|split; [unfold capacity in *; lia|split]].
      * py_unfold. py_cases; try lia; try congruence.
        do 2 f_equal. lia.
      * reflexivity.
      * cbn. change (capacity (with_nsRead _ b)) with (capacity b). lia.
    + left. repeat split; try done. py_unfold. py_cases; try lia; congruence.
  - right. exists b. split; [|split; [unfold capacity in *; lia|split; [done|done]]].
    py_unfold. py_cases; try lia. do 2 f_equal. lia.
Qed.

Lemma read_final b frm to advance :
  let b' := final (read frm to advance b) in
  _data b' = _data b /\ _nsWritten b' = _nsWritten b /\
  _allowOverflow b' = _allowOverflow b /\ _updatedEvent b' = _updatedEvent b /\
  (advance = false -> b' = b).
Proof.
  cbn zeta. py_unfold. py_cases; repeat split; try done; try discriminate.
Qed.

(** Whatever [read] is given and however it ends, it leaves the storage, the
    write counter, the policy and the update event as they were; without
    [advance] it leaves the whole object as it was. *)
Theorem read_touches_only_nsRead b frm to advance :
  let b' := final (read frm to advance b) in
  _data b' = _data b /\ _nsWritten b' = _nsWritten b /\
  _allowOverflow b' = _allowOverflow b /\ _updatedEvent b' = _updatedEvent b /\
  (advance = false -> b' = b).
Proof. apply read_final. Qed.

(** The update event and [write]: a [write] that returns leaves the event
    set, so that [updated] answers [True] once and [False] from then on
    (touching nothing but the event); a [write] that raises leaves the event
    as it was. *)
Theorem updated_after_write b data at_ :
  (forall b1, write data at_ b = Returned tt b1 ->
     updated b1 = Returned true (with_updatedEvent false b1) /\
     updated (with_updatedEvent false b1)
       = Returned false (with_updatedEvent false b1)) /\
  (forall e b1, write data at_ b = Raised e b1 ->
     _updatedEvent b1 = _updatedEvent b).
Proof.
  split.
  - intros b1 H. apply write_Returned_inv in H as (_ & _ & _ & _ & _ & _ & He & _).
    split; py_unfold; [rewrite He|]; reflexivity.
  - intros e b1. rewrite write_eq. cbn zeta.
    repeat case_decide; try destruct (_allowOverflow b);
      intros [= <- <-]; reflexivity.
Qed.

(** No call resizes the storage or changes the overflow policy. *)
Theorem capacity_and_policy_fixed b (c : Call) :
  length (_data (call c b)) = length (_data b) /\
  _allowOverflow (call c b) = _allowOverflow b.
Proof.
  destruct c; unfold call.
  - rewrite write_eq. cbn zeta.
    repeat case_decide; try destruct (_allowOverflow b) eqn:?;
      cbn; rewrite ?length_np_put; done.
  - pose proof (read_final b frm to advance) as (Hd & _ & Ha & _).
    rewrite Hd, Ha. done.
  - py_unfold. py_cases; done.
  - py_unfold. py_cases; done.
  - py_unfold. py_cases; done.
  - py_unfold. py_cases; done.
  - py_unfold. py_cases; done.
  - py_unfold. py_cases; done.
  - py_unfold. py_cases; done.
Qed.

Lemma write_keeps_cursors_ok b data at_ b1 :
  cursors_ok b -> write data at_ b = Returned tt b1 -> cursors_ok b1.
Proof.
  intros [H0 H1] H.
  apply write_Returned_inv in H as (Ha & Hr & _ & _ & Hw & _ & _ & Hr1).
  cbn zeta in *. unfold cursors_ok. rewrite Hr1, Hw. clear Hr1.
  match goal with |- context [decide ?P] => destruct (decide P) end;
    unfold capacity in *; lia.
Qed.

(** A run of appended blocks that returns has moved the write counter by
    the number of samples in the blocks, whatever was discarded on the way. *)
Theorem appends_nsWritten blocks b b' :
  cursors_ok b -> appends blocks b = Returned tt b' ->
  _nsWritten b' = _nsWritten b + total blocks /\ cursors_ok b'.
Proof.
  revert b. induction blocks as [|data rest IH]; intros b Hok H.
  - injection H as <-. unfold total. cbn. split; [lia | done].
  - cbn [appends] in H. cbv beta iota delta [mbind Py_bind bind] in H.
    destruct (write data None b) as [[] b1|] eqn:Hw; [|discriminate].
    pose proof (write_keeps_cursors_ok _ _ _ _ Hok Hw) as Hok1.
    apply write_Returned_inv in Hw as (_ & _ & _ & _ & Hw1 & _).
    cbn zeta in Hw1.
    assert (write_at b None = _nsWritten b) as Hat.
    { unfold write_at. cbn. destruct Hok.
      destruct (decide (_nsWritten b < 0)); [lia | reflexivity]. }
    destruct (IH b1 Hok1 H) as [Hn Hok']. split; [|done].
    rewrite Hn, Hw1, Hat, total_cons. lia.
Qed.

(** The overflowed state is entered in one way only: by a [write] under the
    strict policy that raises the overflow error. No other call, and no call
    that returns, takes a buffer that is not overflowed to one that is. *)
Theorem overflowed_only_by_strict_write b (c : Call) :
  ~ overflowed b -> overflowed (call c b) ->
  _allowOverflow b = false /\
  exists data at_ b', c = CallWrite data at_ /\
                      write data at_ b = Raised BufferOverflow b'.
Proof.
  unfold overflowed. intros Hno Hov. destruct c; unfold call in Hov.
  - revert Hov. rewrite write_eq. cbn zeta.
    repeat case_decide; try destruct (_allowOverflow b) eqn:Hallow;
      cbn [final]; intros Hov; try (exfalso; exact (Hno Hov)).
    all: try (exfalso; revert Hov; unfold capacity, stored in *; cbn in *;
              rewrite ?length_np_put; lia).
    split; [done|]. exists data, at_, (stored b data (write_at b at_)).
    split; [done|]. rewrite write_eq. cbn zeta.
    repeat (case_decide; try lia; try tauto). rewrite Hallow. reflexivity.
  - exfalso. revert Hov. py_unfold. py_cases; unfold capacity in *; cbn; lia.
  - exfalso. revert Hov. py_unfold. py_cases; unfold capacity in *; cbn; lia.
  - exfalso. revert Hov. py_unfold. py_cases; unfold capacity in *; cbn; lia.
  - exfalso. revert Hov. py_unfold. py_cases; unfold capacity in *; cbn; lia.
  - exfalso. revert Hov. py_unfold. py_cases; unfold capacity in *; cbn; lia.
  - exfalso. revert Hov. py_unfold. py_cases; unfold capacity in *; cbn; lia.
  - exfalso. revert Hov. py_unfold. py_cases; unfold capacity in *; cbn; lia.
  - exfalso. revert Hov. py_unfold. py_cases; unfold capacity in *; cbn; lia.
Qed.

Lemma phys_notin_window (n : nat) (a len i : Z) :
  a + len - Z.of_nat n <= i < a -> phys n i ∉ phys n <$> arange a (a + len).
Proof.
  intros Hi Hin. apply list_elem_of_fmap in Hin as (k & Hk & Hin).
  unfold arange in Hin. apply elem_of_seqZ in Hin.
  apply (phys_inj_window n (a + len - Z.of_nat n) (Z.of_nat n)) in Hk; lia.
Qed.

(** A [write] leaves alone the cells of the samples just before its
    position that are still within one capacity of its end: writing [n]
    samples at [a] keeps what is stored for the logical indices from
    [a + n - capacity] up to [a - 1], however the call ends. *)
Theorem write_keeps_history b data at_ (i : Z) :
  write_at b at_ + Z.of_nat (length data) - capacity b <= i < write_at b at_ ->
  _data (final (write data at_ b)) !! phys (length (_data b)) i
  = _data b !! phys (length (_data b)) i.
Proof.
  intros Hi. rewrite write_eq. cbn zeta.
  repeat case_decide; try destruct (_allowOverflow b); cbn; try reflexivity;
    apply np_put_notin, phys_notin_window; exact Hi.
Qed.

(** Rewinding the read counter to where a [read] started and reading again
    gives the same samples. *)
Theorem rewind_and_reread b frm to r b1 :
  read frm to true b = Returned r b1 ->
  0 <= default (_nsRead b) frm ->
  exists b2 b3,
    nsRead_setter (default (_nsRead b) frm) b1 = Returned tt b2 /\
    read None to true b2 = Returned r b3 /\
    _nsRead b3 = _nsRead b1.
Proof.
  intros H Hf. apply read_inv in H as (Hft & Hcap & Htw & Ht & -> & HF).
  cbn zeta in *.
  set (f := default (_nsRead b) frm) in *. set (t := read_to b to) in *.
  set (b2 := with_updatedEvent true (with_nsRead f (with_nsRead t b))).
  exists b2.
  assert (Hto : read_to b2 to = t) by reflexivity.
  destruct (read_Returned b2 None to true) as (r' & Hr' & HF');
    rewrite ?Hto; cbn [default from_option id b2 _nsRead _nsWritten
                         with_updatedEvent with_nsRead];
    change (capacity b2) with (capacity b);
    try first [lia | unfold capacity in *; lia].
  rewrite Hto in Hr'. cbn [default from_option id b2 _nsRead _nsWritten _data
                           with_updatedEvent with_nsRead] in HF'.
  pose proof (lookups_functional _ _ _ _ HF HF') as ->.
  eexists. split; [|split; [exact Hr' | reflexivity]].
  unfold nsRead_setter.
  cbv beta iota delta [mbind Py_bind bind self raise assign mret Py_ret ret].
  cbn [_nsRead _nsWritten with_nsRead].
  change (capacity (with_nsRead t b)) with (capacity b).
  destruct (decide (f < 0)); [lia|].
  destruct (decide (t < f)); [lia|].
  destruct (decide (f < _nsWritten b - capacity b)); [lia|].
  reflexivity.
Qed.

End Methods.

(** ** The buffer as a window on the stream of appended samples *)

Section Stream.
Context {A : Type}.
Implicit Types (b : CircularBuffer A) (data L : list A) (blocks : list (list A)).

(** The value a position keeps is the one of its last occurrence in the
    index array. *)
Lemma np_put_lookup_last data (w : list nat) (values : list A) (k j : nat) (v : A) :
  w !! k = Some j -> values !! k = Some v ->
  (forall k', (k < k')%nat -> w !! k' <> Some j) ->
  (j < length data)%nat ->
  np_put data w values !! j = Some v.
Proof.
  revert data values k. induction w as [|j0 w IH]; intros d [|v0 vs] k Hw Hv Hlast Hj;
    try discriminate.
  destruct k as [|k]; cbn in Hw, Hv |- *.
  - injection Hw as ->. injection Hv as ->.
    rewrite np_put_notin; [by apply list_lookup_insert_eq|].
    intros Hin. apply list_elem_of_lookup in Hin as [k' Hk'].
    apply (Hlast (S k')); [lia | exact Hk'].
  - apply (IH _ _ k); [done | done | | by rewrite length_insert].
    intros k' Hk'. apply (Hlast (S k')). lia.
Qed.

Lemma write_append_holds b L data b1 :
  holds_stream b L -> write data None b = Returned tt b1 ->
  holds_stream b1 (L ++ data) /\ capacity b1 = capacity b.
Proof.
  intros [HnL Hcells] H.
  assert (Hat : write_at b None = _nsWritten b).
  { unfold write_at. cbn. destruct (decide (_nsWritten b < 0)); [lia | reflexivity]. }
  apply write_Returned_inv in H as (_ & _ & Hroom & Hd & Hw1 & _).
  cbn zeta in *. rewrite Hat in *.
  unfold stored in Hd. cbn [_data with_data with_nsWritten] in Hd.
  set (N := length (_data b)) in *.
  set (n := Z.of_nat (length data)) in *.
  assert (HN : length (_data b1) = N) by (rewrite Hd; apply length_np_put).
  assert (Hcap : capacity b1 = capacity b) by (unfold capacity; fold N; lia).
  split; [|exact Hcap]. split.
  { rewrite Hw1, length_app. lia. }
  intros i Hlo Hi. rewrite HN, Hd. rewrite Hw1, Hcap in *. unfold capacity in *. fold N in Hlo.
  destruct (decide (i < _nsWritten b)) as [Hold|Hnew].
  - rewrite np_put_notin by (apply phys_notin_window; lia).
    rewrite lookup_app_l by lia. apply Hcells; fold N; lia.
  - assert (HNpos : (0 < N)%nat) by (fold N in Hroom; subst n; lia).
    set (k := Z.to_nat (i - _nsWritten b)).
    rewrite lookup_app_r by lia.
    replace (Z.to_nat i - length L)%nat with k by lia.
    destruct (lookup_lt_is_Some_2 data k) as [v Hv]; [subst n; lia|].
    rewrite Hv. apply (np_put_lookup_last _ _ _ k); [| exact Hv | | by apply phys_lt].
    + rewrite list_lookup_fmap. unfold arange.
      rewrite lookup_seqZ_lt by lia. cbn. f_equal. f_equal. lia.
    + intros k' Hk' Hw. rewrite list_lookup_fmap in Hw. unfold arange in Hw.
      destruct (seqZ _ _ !! k') as [i'|] eqn:Hi'; [|discriminate].
      apply lookup_seqZ in Hi' as [-> Hlt]. injection Hw as Hw.
      apply (phys_inj_window N (_nsWritten b + n - Z.of_nat N) (Z.of_nat N)) in Hw; lia.
Qed.

Lemma appends_holds_stream blocks b L b' :
  holds_stream b L -> appends blocks b = Returned tt b' ->
  holds_stream b' (L ++ concat blocks) /\ capacity b' = capacity b.
Proof.
  revert b L. induction blocks as [|data rest IH]; intros b L HL H.
  - injection H as <-. cbn. rewrite app_nil_r. done.
  - cbn [appends] in H. cbv beta iota delta [mbind Py_bind bind] in H.
    destruct (write data None b) as [[] b1|] eqn:Hw; [|discriminate].
    destruct (write_append_holds _ _ _ _ HL Hw) as [HL1 Hc1].
    destruct (IH _ _ HL1 H) as [HL' Hc'].
    cbn [concat]. rewrite (assoc_L (++)). split; [done | congruence].
Qed.

(** The buffer is a window on the stream: after a run of appends to a new
    buffer has returned (under the strict policy while it fits, under
    [allowOverflow] however long it is), reading from any index [f] of the
    last [C] samples to the end returns the stream of all appended samples
    from its [f]-th one on. *)
Theorem read_returns_stream_suffix (C : nat) (zero : A) allowOverflow blocks b' (f : Z) :
  appends blocks (init C zero allowOverflow) = Returned tt b' ->
  0 <= f -> total blocks - Z.of_nat C <= f <= total blocks ->
  forall advance, exists b2,
    read (Some f) None advance b' = Returned (drop (Z.to_nat f) (concat blocks)) b2.
Proof.
  intros Hrun Hf0 Hf advance.
  assert (H0 : holds_stream (init C zero allowOverflow) []).
  { split; [reflexivity|]. cbn. intros. lia. }
  destruct (appends_holds_stream _ _ _ _ H0 Hrun) as [[HnL Hcells] Hcap].
  rewrite app_nil_l in HnL, Hcells.
  assert (HC : capacity b' = Z.of_nat C).
  { rewrite Hcap. unfold capacity, init. cbn. by rewrite length_replicate. }
  unfold total in Hf. set (L := concat blocks) in *.
  assert (Hto : read_to b' None = _nsWritten b').
  { unfold read_to. cbn. destruct (decide (_nsWritten b' < 0)); [lia | reflexivity]. }
  destruct (read_Returned b' (Some f) None advance) as (r & Hr & HF);
    rewrite ?Hto; cbn [default from_option id]; try lia.
  rewrite Hto in HF. cbn [default from_option id] in HF.
  assert (HD : Forall2 (fun i x => _data b' !! phys (length (_data b')) i = Some x)
                 (arange f (_nsWritten b')) (drop (Z.to_nat f) L)).
  { apply Forall2_same_length_lookup_2.
    - unfold arange. rewrite length_seqZ, length_drop. lia.
    - intros idx i x Hi Hx. unfold arange in Hi.
      apply lookup_seqZ in Hi as [-> Hlt]. rewrite lookup_drop in Hx.
      rewrite Hcells by lia. rewrite <- Hx. f_equal. lia. }
  rewrite (lookups_functional _ _ _ _ HF HD) in Hr. eauto.
Qed.

End Stream.

(** ** More concrete runs *)

Section Accessors.
Context {A : Type}.
Implicit Types (b : CircularBuffer A).

(** The [nsRead] property on a buffer that is not overflowed under the
    strict policy returns the read counter raised, if need be, to
    [_nsWritten - capacity], stores that value as the read counter and
    leaves a buffer that is not overflowed; on an overflowed strict buffer
    it raises the overflow error and changes nothing. *)
Theorem nsRead_value b :
  (overflowed b /\ _allowOverflow b = false /\
   nsRead b = Raised BufferOverflow b) \/
  (exists b', nsRead b
              = Returned (Z.max (_nsRead b) (_nsWritten b - capacity b)) b' /\
              _nsRead b' = Z.max (_nsRead b) (_nsWritten b - capacity b) /\
              _nsWritten b' = _nsWritten b /\ _data b' = _data b /\
              ~ overflowed b').
Proof.
  unfold overflowed.
  destruct (decide (_nsRead b < _nsWritten b - capacity b)) as [Hov|Hov].
  - destruct (_allowOverflow b) eqn:Hallow.
    + right. exists (with_nsRead (_nsWritten b - capacity b) b).
      split; [|repeat split; cbn;
                 change (capacity (with_nsRead _ b)) with (capacity b); lia].
      py_unfold. py_cases; try lia; try congruence.
      do 2 f_equal. lia.
    + left. repeat split; try done. py_unfold. py_cases; try lia; congruence.
  - right. exists b. split; [|repeat split; lia].
    py_unfold. py_cases; try lia. do 2 f_equal. lia.
Qed.

(** What a returning [write] has done: the write counter is the position
    plus the length of the block, also when that is below the old counter
    (writing inside the written part drops what followed the block); the
    read counter is raised to [_nsWritten - capacity] when it was below it;
    the event is set; the storage is the old one with the block put at the
    cells of its indices. *)
Theorem write_effect b (data : list A) at_ b1 :
  write data at_ b = Returned tt b1 ->
  _nsWritten b1 = write_at b at_ + Z.of_nat (length data) /\
  _nsRead b1 = Z.max (_nsRead b) (_nsWritten b1 - capacity b) /\
  _updatedEvent b1 = true /\
  _data b1 = np_put (_data b)
               (phys (length (_data b)) <$>
                  arange (write_at b at_) (write_at b at_ + Z.of_nat (length data)))
               data.
Proof.
  intros H. apply write_Returned_inv in H as (_ & _ & _ & Hd & Hw & _ & He & Hr).
  cbn zeta in *. repeat split; try done.
  rewrite Hr. match goal with |- context [decide ?P] => destruct (decide P) end; lia.
Qed.

End Accessors.

Lemma write_returns_iff_witness :
  exists b1, write [5;6] (Some 4) (mkCircularBuffer [1;2;3;4] true 4 0 true)
             = Returned tt b1.
Proof.
  assert (H : 0 <= 4 <= 4 /\ 0 <= 4 /\ (2%nat = 0%nat \/ 0 < 4) /\
              (true = true \/ 4 + 2 - 0 <= 4))
    by (repeat split; first [lia | right; lia | left; reflexivity]).
  exact (proj2 (write_returns_iff
                  (mkCircularBuffer [1;2;3;4] true 4 0 true) [5;6] (Some 4)) H).
Defined.

Lemma read_returns_iff_witness :
  exists r b1, read (Some 2) (Some 6) true (mkCircularBuffer [5;6;3;4] true 6 2 true)
               = Returned r b1.
Proof.
  assert (H : 2 <= 6 <= 6 /\ 6 - 4 <= 2) by lia.
  exact (proj2 (proj1 (read_returns_iff
                         (mkCircularBuffer [5;6;3;4] true 6 2 true)
                         (Some 2) (Some 6) true)) H).
Defined.

Lemma nsAvailable_bounds_witness :
  (overflowed (mkCircularBuffer [5;6;3;4] true 6 0 true) /\
   true = false /\
   nsAvailable (mkCircularBuffer [5;6;3;4] true 6 0 true)
   = Raised BufferOverflow (mkCircularBuffer [5;6;3;4] true 6 0 true)) \/
  (exists b', nsAvailable (mkCircularBuffer [5;6;3;4] true 6 0 true)
              = Returned 4 b' /\
              0 <= 4 <= 4 /\ _nsWritten b' = 6 /\ ~ overflowed b').
Proof.
  assert (H : cursors_ok (mkCircularBuffer [5;6;3;4] true 6 0 true))
    by (unfold cursors_ok; cbn; lia).
  exact (nsAvailable_bounds (mkCircularBuffer [5;6;3;4] true 6 0 true) H).
Defined.

Lemma updated_after_write_witness :
  updated (mkCircularBuffer [1;0;0;0] false 1 0 true)
    = Returned true (mkCircularBuffer [1;0;0;0] false 1 0 false) /\
  updated (mkCircularBuffer [1;0;0;0] false 1 0 false)
    = Returned false (mkCircularBuffer [1;0;0;0] false 1 0 false).
Proof.
  exact (proj1 (updated_after_write (init 4 0 false) [1] None)
           (mkCircularBuffer [1;0;0;0] false 1 0 true) eq_refl).
Defined.

Lemma appends_nsWritten_witness :
  _nsWritten (mkCircularBuffer [5;6;3;4] true 6 2 true) = 0 + 6 /\
  cursors_ok (mkCircularBuffer [5;6;3;4] true 6 2 true).
Proof.
  assert (H : cursors_ok (init 4 0 true)) by (unfold cursors_ok; cbn; lia).
  exact (appends_nsWritten [[1;2;3];[4;5;6]] (init 4 0 true)
           (mkCircularBuffer [5;6;3;4] true 6 2 true) H eq_refl).
Defined.

Lemma overflowed_only_by_strict_write_witness :
  false = false /\
  exists data at_ b',
    CallWrite [5] None = CallWrite data at_ /\
    write data at_ (mkCircularBuffer [1;2;3;4] false 4 0 true)
    = Raised BufferOverflow b'.
Proof.
  assert (H1 : ~ 0 < 4 - 4) by lia.
  assert (H2 : 0 < 5 - 4) by lia.
  exact (overflowed_only_by_strict_write
           (mkCircularBuffer [1;2;3;4] false 4 0 true) (CallWrite [5] None) H1 H2).
Defined.

Lemma write_keeps_history_witness :
  _data (final (write [5;6] (Some 4) (mkCircularBuffer [1;2;3;4] true 4 0 true)))
    !! phys 4 3
  = Some 4.
Proof.
  assert (H : 4 + 2 - 4 <= 3 < 4) by lia.
  exact (write_keeps_history (mkCircularBuffer [1;2;3;4] true 4 0 true)
           [5;6] (Some 4) 3 H).
Defined.

Lemma rewind_and_reread_witness :
  exists b2 b3,
    nsRead_setter 1 (mkCircularBuffer [1;2;3;4] false 4 3 true) = Returned tt b2 /\
    read None (Some 3) true b2 = Returned [2;3] b3 /\
    _nsRead b3 = 3.
Proof.
  assert (H : 0 <= 1) by lia.
  exact (rewind_and_reread (mkCircularBuffer [1;2;3;4] false 4 1 true)
           None (Some 3) [2;3] (mkCircularBuffer [1;2;3;4] false 4 3 true)
           eq_refl H).
Defined.

Lemma read_returns_stream_suffix_witness :
  exists b2,
    read (Some 2) None true (mkCircularBuffer [5;6;3;4] true 6 2 true)
    = Returned [3;4;5;6] b2.
Proof.
  assert (H1 : 0 <= 2) by lia.
  assert (H2 : total [[1;2;3];[4;5;6]] - Z.of_nat 4 <= 2 <= total [[1;2;3];[4;5;6]])
    by (unfold total; cbn; lia).
  exact (read_returns_stream_suffix 4 0 true [[1;2;3];[4;5;6]]
           (mkCircularBuffer [5;6;3;4] true 6 2 true) 2 eq_refl H1 H2 true).
Defined.

Lemma write_effect_witness :
  _nsWritten (mkCircularBuffer [1;2;9;4] false 3 0 true) = 2 + 1 /\
  _nsRead (mkCircularBuffer [1;2;9;4] false 3 0 true) = Z.max 0 (3 - 4) /\
  true = true /\
  [1;2;9;4] = np_put [1;2;3;4] (phys 4 <$> arange 2 (2 + 1)) [9].
Proof.
  exact (write_effect (mkCircularBuffer [1;2;3;4] false 4 0 false) [9] (Some 2)
           (mkCircularBuffer [1;2;9;4] false 3 0 true) eq_refl).
Defined.
